(** * Brixsport analytics service: [apps/analytics/main.py]

    The module builds one [FastAPI] application object, registers two
    parameterless [async def] handlers on it with [@app.get], and, when run
    as a script, hands the application to [uvicorn.run] with a fixed host
    and port.

    The embedding has three layers and the server around them.
    - Python objects: the two handlers evaluate a dict display, which
      allocates a new dict object; the object store is explicit and the
      handlers are state-passing functions returning a reference.
    - The module itself: the application object as the module's top-level
      statements leave it, and the [__main__] guard.
    - The framework contract the module is written against: the routes the
      [FastAPI] constructor installs when called as in the source, the
      router's matching order, and the default responses (not found, method
      not allowed, trailing-slash redirect).  Route paths here are literal;
      the router compiles a literal path to the pattern [^path$], which a
      request path meets when it is the route path, alone or followed by
      one newline.  The URL of a redirect is built by the framework from
      the request; it is a parameter of the development.
    The server that line 19 starts adds two things: the [Date] and
    [Server] headers it puts before the application's own, and the worker
    count it reads from the environment before it binds. *)

From Stdlib Require Import Ascii ZArith.
From stdpp Require Import gmap strings list.

Local Open Scope Z_scope.

(** ** Python objects *)

Module Py.

(** A [dict] whose keys and values are [str], as both payloads are. *)
Abbreviation pydict := (gmap string string).

(** Object identities. *)
Definition loc := positive.

(** The object store: the dict objects that are alive. *)
Abbreviation heap := (gmap loc pydict).

(** Evaluating a dict display creates an object distinct from every
    object that is alive. *)
Definition new_dict (d : pydict) (h : heap) : loc * heap :=
  let l := fresh (dom h) in (l, <[l := d]> h).

End Py.

Import Py.

(** ** The framework objects the module manipulates *)

(** The callables a route can point to: the two handlers of the module and
    the four documentation endpoints the framework brings along. *)
Inductive endpoint :=
| EpRoot
| EpHealthCheck
| EpOpenapi
| EpSwaggerUiHtml
| EpSwaggerUiRedirect
| EpRedocHtml.

Global Instance endpoint_eq_dec : EqDecision endpoint.
Proof. solve_decision. Defined.

Record route := Route {
  route_path : string;
  route_methods : list string;
  route_endpoint : endpoint
}.

Record FastAPI := MkFastAPI {
  title : string;
  description : string;
  version : string;
  routes : list route
}.

(** [app.add_route(path, f)]: a plain route; a route answering GET also
    answers HEAD. *)
Definition add_route (p : string) (f : endpoint) (a : FastAPI) : FastAPI :=
  {| title := title a; description := description a; version := version a;
     routes := routes a ++ [Route p ["GET"; "HEAD"] f] |}.

(** [app.add_api_route(path, f, methods=ms)]: exactly the methods given. *)
Definition add_api_route (p : string) (ms : list string) (f : endpoint)
    (a : FastAPI) : FastAPI :=
  {| title := title a; description := description a; version := version a;
     routes := routes a ++ [Route p ms f] |}.

(** [FastAPI(title=..., description=..., version=...)].  The source passes
    none of [openapi_url], [docs_url], [redoc_url] and
    [swagger_ui_oauth2_redirect_url], so the constructor's [setup()]
    installs the schema and the documentation pages at their default
    paths, in this order. *)
Definition FastAPI_init (t d v : string) : FastAPI :=
  add_route "/redoc" EpRedocHtml
    (add_route "/docs/oauth2-redirect" EpSwaggerUiRedirect
       (add_route "/docs" EpSwaggerUiHtml
          (add_route "/openapi.json" EpOpenapi
             {| title := t; description := d; version := v; routes := [] |}))).

(** The decorator [@app.get(path)] applied to [f]. *)
Definition get (p : string) (f : endpoint) (a : FastAPI) : FastAPI :=
  add_api_route p ["GET"] f a.

(** ** The module *)

(** The module global after lines 3-15: the constructor call followed by
    the two decorated definitions, in source order. *)
Definition app : FastAPI :=
  get "/health" EpHealthCheck
    (get "/" EpRoot
       (FastAPI_init "Brixsport Analytics API"
          "Analytics service for Brixsport campus live score application"
          "1.0.0")).

(** Program state: the module global and the object store. *)
Record state := State {
  st_app : FastAPI;
  st_heap : heap
}.

(** The state-passing type of a Python call. *)
Definition PyM (A : Type) : Type := state -> A * state.

(** Allocation of a dict in the current store; the module global is not
    touched. *)
Definition alloc_dict (d : pydict) : PyM loc :=
  fun s => let '(l, h) := new_dict d (st_heap s) in
           (l, {| st_app := st_app s; st_heap := h |}).

Definition root_payload : pydict :=
  {[ "message" := "Brixsport Analytics Service" ]}.

Definition health_payload : pydict :=
  {[ "status" := "OK" ]}.

(** [async def root(): return {"message": "Brixsport Analytics Service"}] *)
Definition root : PyM loc := alloc_dict root_payload.

(** [async def health_check(): return {"status": "OK"}] *)
Definition health_check : PyM loc := alloc_dict health_payload.




(** The state in which the first request is served: the module has been
    executed and the store holds whatever the interpreter had allocated. *)
Definition boot (h0 : heap) : state := {| st_app := app; st_heap := h0 |}.

(** ** Requests, responses and the router *)

Record request := Request {
  method : string;
  path : string;
  query_string : string;
  headers : list (string * string);
  req_body : string
}.

(** What a response carries besides its status.  A documentation page is
    generated by the framework from the application it documents. *)
Inductive content :=
| JSONBody (d : pydict)
| BuiltinPage (e : endpoint) (a : FastAPI)
| RedirectTo (url : string)
| PlainText (t : string).

Record response := Response {
  status_code : Z;
  body : content;
  served_by : option endpoint
}.

Inductive Match := NONE | PARTIAL | FULL.

Global Instance Match_eq_dec : EqDecision Match.
Proof. solve_decision. Defined.

(** The line feed. *)
Definition newline : string := String "010"%char EmptyString.

(** The pattern [^rp$] of a literal route path [rp], tried with
    [re.match]: [$] is met at the end of the path and also before a
    newline that ends it. *)
Definition path_matches (rp p : string) : bool :=
  bool_decide (p = rp) || bool_decide (p = rp +:+ newline).

(** [Route.matches]: the path decides between [NONE] and a match, the
    method between [PARTIAL] and [FULL]. *)
Definition matches (r : route) (m p : string) : Match :=
  if path_matches (route_path r) p
  then if bool_decide (m ∈ route_methods r) then FULL else PARTIAL
  else NONE.

(** The first route, in registration order, whose match is [want]. *)
Fixpoint first_match (want : Match) (m p : string) (rs : list route)
    : option route :=
  match rs with
  | [] => None
  | r :: rs' =>
      if bool_decide (matches r m p = want) then Some r
      else first_match want m p rs'
  end.

(** Whether some route matches at least the path. *)
Fixpoint any_match (m p : string) (rs : list route) : bool :=
  match rs with
  | [] => false
  | r :: rs' =>
      if bool_decide (matches r m p = NONE) then any_match m p rs' else true
  end.

(** [str.endswith("/")] *)
Fixpoint endswith_slash (p : string) : bool :=
  match p with
  | EmptyString => false
  | String c EmptyString => bool_decide (c = "/"%char)
  | String _ p' => endswith_slash p'
  end.

(** [str.rstrip("/")] *)
Fixpoint rstrip_slash (p : string) : string :=
  match p with
  | EmptyString => EmptyString
  | String c p' =>
      match rstrip_slash p' with
      | EmptyString =>
          if bool_decide (c = "/"%char) then EmptyString
          else String c EmptyString
      | t => String c t
      end
  end.

(** The path tried when nothing matched: without its trailing slashes, or
    with one added. *)
Definition toggle_slash (p : string) : string :=
  if endswith_slash p then rstrip_slash p else String.append p "/".

Inductive routing :=
| ToEndpoint (e : endpoint)
| MethodNotAllowed
| RedirectSlashes (p : string)
| NotFound.

(** The router's decision: the first full match is served; failing that, a
    route matching the path alone refuses the method; failing that, a path
    other than [/] whose slash-toggled form matches is redirected; and
    everything else goes to the default handler. *)
Definition dispatch (a : FastAPI) (m p : string) : routing :=
  match first_match FULL m p (routes a) with
  | Some r => ToEndpoint (route_endpoint r)
  | None =>
      match first_match PARTIAL m p (routes a) with
      | Some _ => MethodNotAllowed
      | None =>
          if bool_decide (p ≠ "/") && any_match m (toggle_slash p) (routes a)
          then RedirectSlashes (toggle_slash p)
          else NotFound
      end
  end.

Definition method_not_allowed : response :=
  {| status_code := 405;
     body := JSONBody {[ "detail" := "Method Not Allowed" ]};
     served_by := None |}.

Definition not_found : response :=
  {| status_code := 404;
     body := JSONBody {[ "detail" := "Not Found" ]};
     served_by := None |}.

(** What an exception that nothing catches becomes. *)
Definition server_error (e : option endpoint) : response :=
  {| status_code := 500; body := PlainText "Internal Server Error";
     served_by := e |}.

(** The documentation endpoints answer with a page the framework
    generates from the application. *)
Definition builtin_response (e : endpoint) (a : FastAPI) : response :=
  {| status_code := 200; body := BuiltinPage e a; served_by := Some e |}.

(** ** The server of line 19 *)

(** What the server writes for a response of the application.
    [uvicorn.run] is called with its defaults, so the header block starts
    with a [Date] header holding the server's clock, in whole seconds,
    and a [Server] header; the other headers and the body are those of
    the application's response. *)
Record wire := Wire {
  header_date : Z;
  header_server : string;
  payload : response
}.

Definition on_wire (now : Z) (r : response) : wire :=
  {| header_date := now; header_server := "uvicorn"; payload := r |}.







(** The application the module would build with its two decorated
    definitions in the other order. *)
Definition app_other_order : FastAPI :=
  get "/" EpRoot
    (get "/health" EpHealthCheck
       (FastAPI_init "Brixsport Analytics API"
          "Analytics service for Brixsport campus live score application"
          "1.0.0")).

(** A URL builder to run the service with on concrete requests; the
    development holds for every builder. *)
Definition sample_url (req : request) (p : string) : option string :=
  Some p.

Section Server.

(** The URL a redirect points to.  The framework builds it from the
    request (its scheme, its [Host] header, its query string) with the
    path replaced by the slash-toggled one; [None] stands for a request
    from which no URL can be built. *)
Variable redirect_url : request → string → option string.

(** The redirect to the slash-toggled path [p] for the request [req]. *)
Definition redirect (req : request) (p : string) : response :=
  match redirect_url req p with
  | Some url => {| status_code := 307; body := RedirectTo url;
                   served_by := None |}
  | None => server_error None
  end.

(** The value a handler returned becomes a JSON response with the default
    status of a route.  A reference always denotes a live object; the
    other branch is what an exception while encoding would give. *)
Definition serialize_response (e : endpoint) (l : loc) (s : state)
    : response :=
  match st_heap s !! l with
  | Some d => {| status_code := 200; body := JSONBody d; served_by := Some e |}
  | None => server_error (Some e)
  end.

(** Calling the endpoint of the matched route and building its response. *)
Definition run_endpoint (e : endpoint) : PyM response :=
  fun s =>
    match e with
    | EpRoot => let '(l, s') := root s in (serialize_response e l s', s')
    | EpHealthCheck =>
        let '(l, s') := health_check s in (serialize_response e l s', s')
    | _ => (builtin_response e (st_app s), s)
    end.

(** One request, from routing to response.  The handlers have no
    parameters: nothing of the request is passed to them. *)
Definition handle_request (req : request) : PyM response :=
  fun s =>
    match dispatch (st_app s) (method req) (path req) with
    | ToEndpoint e => run_endpoint e s
    | MethodNotAllowed => (method_not_allowed, s)
    | RedirectSlashes p => (redirect req p, s)
    | NotFound => (not_found, s)
    end.

(** Requests served one after the other. *)
Fixpoint serve (reqs : list request) (s : state) : list response * state :=
  match reqs with
  | [] => ([], s)
  | r :: rs =>
      let '(x, s1) := handle_request r s in
      let '(xs, s2) := serve rs s1 in
      (x :: xs, s2)
  end.

(** A request with nothing but a method and a path. *)
Definition bare (m p : string) : request :=
  {| method := m; path := p; query_string := ""; headers := [];
     req_body := "" |}.

Definition root_response : response :=
  {| status_code := 200; body := JSONBody root_payload;
     served_by := Some EpRoot |}.

Definition health_response : response :=
  {| status_code := 200; body := JSONBody health_payload;
     served_by := Some EpHealthCheck |}.

(** The response a client of one process receives to [req] after that
    process, started with store [h0], has served [hist]. *)
Definition run (h0 : heap) (hist : list request) (req : request) : response :=
  fst (handle_request req (snd (serve hist (boot h0)))).

(** [n] calls of a handler in a row; the references returned, oldest
    first. *)
Fixpoint call_n (f : PyM loc) (n : nat) (s : state) : list loc * state :=
  match n with
  | O => ([], s)
  | S n' =>
      let '(l, s1) := f s in
      let '(ls, s2) := call_n f n' s1 in
      (l :: ls, s2)
  end.

(** What [n] calls of [f] from [s] may do: allocate.  The module global
    is the same afterwards, every object alive in [s] has the contents it
    had, the references returned denote objects that were not alive in
    [s], and no two of them are the same object. *)
Definition only_allocates (f : PyM loc) (n : nat) (s : state) : Prop :=
  st_app (call_n f n s).2 = st_app s
  ∧ (∀ l', l' ∈ dom (st_heap s) →
       st_heap (call_n f n s).2 !! l' = st_heap s !! l')
  ∧ (∀ l, l ∈ (call_n f n s).1 → l ∉ dom (st_heap s))
  ∧ NoDup (call_n f n s).1.

(** ** Requests in flight

    The handlers are coroutines without an [await], so the event loop runs
    each call from start to end.  A request in flight is therefore in one
    of three stages, and the loop may switch to another request between
    any two of them. *)

Inductive task :=
| Accepted (req : request)
| Awaiting (e : endpoint) (l : loc)
| Sent (r : response).

(** The next stage of one request. *)
Definition step_task (t : task) : PyM task :=
  fun s =>
    match t with
    | Accepted req =>
        match dispatch (st_app s) (method req) (path req) with
        | ToEndpoint EpRoot =>
            let '(l, s') := root s in (Awaiting EpRoot l, s')
        | ToEndpoint EpHealthCheck =>
            let '(l, s') := health_check s in (Awaiting EpHealthCheck l, s')
        | ToEndpoint e => (Sent (builtin_response e (st_app s)), s)
        | MethodNotAllowed => (Sent method_not_allowed, s)
        | RedirectSlashes p => (Sent (redirect req p), s)
        | NotFound => (Sent not_found, s)
        end
    | Awaiting e l => (Sent (serialize_response e l s), s)
    | Sent r => (Sent r, s)
    end.

(** The loop advances the request in slot [i]; a slot that does not exist
    is skipped. *)
Definition step_pool (i : nat) (ps : list task * state) : list task * state :=
  match ps.1 !! i with
  | Some t => let '(t', s') := step_task t ps.2 in (<[i := t']> ps.1, s')
  | None => ps
  end.

(** A schedule names the slot to advance at each turn. *)
Definition run_schedule (sched : list nat) (ps : list task * state)
    : list task * state :=
  foldl (fun acc i => step_pool i acc) ps sched.

(** How often slot [i] gets a turn. *)
Definition turns (i : nat) (sched : list nat) : nat :=
  length (filter (fun j => j = i) sched).

(** The response [req] gets from a process that serves nothing else. *)
Definition alone (req : request) : response :=
  (handle_request req (boot ∅)).1.

(** How far a request in flight has come. *)
Definition stage (t : task) : nat :=
  match t with
  | Accepted _ => 0
  | Awaiting _ _ => 1
  | Sent _ => 2
  end.

Definition stage_at (i : nat) (ps : list task * state) : nat :=
  from_option stage 0%nat (ps.1 !! i).

(** [s'] has the module global of [s] and every object of [s], with the
    contents it has in [s]. *)
Definition extends (s s' : state) : Prop :=
  st_app s' = st_app s
  ∧ ∀ l d, st_heap s !! l = Some d → st_heap s' !! l = Some d.

(** The request in a slot is on its way to the response it would get
    alone: not yet routed, or holding a live dict with the content of that
    response, or answered with it. *)
Definition task_ok (s : state) (req : request) (t : task) : Prop :=
  match t with
  | Accepted r => r = req
  | Awaiting e l =>
      ∃ d, st_heap s !! l = Some d
           ∧ alone req = Response 200 (JSONBody d) (Some e)
  | Sent r => r = alone req
  end.

Definition pool_ok (reqs : list request) (ps : list task * state) : Prop :=
  st_app ps.2 = app
  ∧ ∀ i req, reqs !! i = Some req →
      ∃ t, ps.1 !! i = Some t ∧ task_ok ps.2 req t.

(** ** The routes at work *)

Example get_root :
  (handle_request (bare "GET" "/") (boot ∅)).1 = root_response.
Proof. vm_compute. reflexivity. Qed.

Example get_health :
  (handle_request (bare "GET" "/health") (boot ∅)).1 = health_response.
Proof. vm_compute. reflexivity. Qed.

Example post_root :
  (handle_request (bare "POST" "/") (boot ∅)).1 = method_not_allowed.
Proof. vm_compute. reflexivity. Qed.

Example head_root :
  (handle_request (bare "HEAD" "/") (boot ∅)).1 = method_not_allowed.
Proof. vm_compute. reflexivity. Qed.

Example get_unknown :
  (handle_request (bare "GET" "/unknown") (boot ∅)).1 = not_found.
Proof. vm_compute. reflexivity. Qed.

(** A trailing slash on a route path is redirected, not refused. *)
Example get_health_slash :
  (handle_request (bare "GET" "/health/") (boot ∅)).1
    = redirect (bare "GET" "/health/") "/health".
Proof. vm_compute. reflexivity. Qed.

(** The schema and the documentation pages are served. *)
Example get_docs :
  (handle_request (bare "GET" "/docs") (boot ∅)).1
    = builtin_response EpSwaggerUiHtml app.
Proof. vm_compute. reflexivity. Qed.

Example get_openapi :
  (handle_request (bare "GET" "/openapi.json") (boot ∅)).1
    = builtin_response EpOpenapi app.
Proof. vm_compute. reflexivity. Qed.

Example get_redoc :
  (handle_request (bare "GET" "/redoc") (boot ∅)).1
    = builtin_response EpRedocHtml app.
Proof. vm_compute. reflexivity. Qed.

(** A newline after a route path is still that route. *)
Example get_health_newline :
  (handle_request (bare "GET" ("/health" +:+ newline)) (boot ∅)).1
    = health_response.
Proof. vm_compute. reflexivity. Qed.

Example get_root_newline :
  (handle_request (bare "GET" ("/" +:+ newline)) (boot ∅)).1 = root_response.
Proof. vm_compute. reflexivity. Qed.

(** Two calls of a handler: two objects, one content. *)
Example root_twice :
  (call_n root 2 (boot ∅)).1 = [1%positive; 2%positive]
  ∧ st_heap (call_n root 2 (boot ∅)).2
      = {[ 1%positive := root_payload; 2%positive := root_payload ]}.
Proof. split; vm_compute; reflexivity. Qed.

(** ** The handlers *)

Section Handlers.

Implicit Types (s : state) (d : pydict) (h : heap).

Lemma alloc_dict_eq d s :
  alloc_dict d s =
    (fresh (dom (st_heap s)),
     State (st_app s) (<[fresh (dom (st_heap s)) := d]> (st_heap s))).
Proof. reflexivity. Qed.

Lemma alloc_dict_fresh d s : (alloc_dict d s).1 ∉ dom (st_heap s).
Proof. rewrite alloc_dict_eq. apply is_fresh. Qed.

Lemma alloc_dict_app d s : st_app (alloc_dict d s).2 = st_app s.
Proof. reflexivity. Qed.

Lemma alloc_dict_lookup d s :
  st_heap (alloc_dict d s).2 !! (alloc_dict d s).1 = Some d.
Proof. rewrite alloc_dict_eq. apply lookup_insert_eq. Qed.

Lemma alloc_dict_frame d s l' :
  l' ∈ dom (st_heap s) →
  st_heap (alloc_dict d s).2 !! l' = st_heap s !! l'.
Proof.
  intros Hin. rewrite alloc_dict_eq. cbn.
  apply lookup_insert_ne. intros <-. by apply (is_fresh (dom (st_heap s))).
Qed.

Lemma alloc_dict_dom d s :
  dom (st_heap (alloc_dict d s).2) = {[ (alloc_dict d s).1 ]} ∪ dom (st_heap s).
Proof. rewrite alloc_dict_eq. cbn. apply dom_insert_L. Qed.

(** Calls in a row keep the module global, keep every object that was
    alive, and return references that were not. *)
Lemma call_n_alloc d n s :
  st_app (call_n (alloc_dict d) n s).2 = st_app s
  ∧ (∀ l', l' ∈ dom (st_heap s) →
       st_heap (call_n (alloc_dict d) n s).2 !! l' = st_heap s !! l')
  ∧ dom (st_heap s) ⊆ dom (st_heap (call_n (alloc_dict d) n s).2)
  ∧ (∀ l, l ∈ (call_n (alloc_dict d) n s).1 → l ∉ dom (st_heap s))
  ∧ NoDup (call_n (alloc_dict d) n s).1.
Proof.
  revert s. induction n as [|n IH]; intros s; cbn [call_n].
  { cbn. split_and!; [done | done | done | by intros l ?%elem_of_nil | constructor]. }
  pose proof (alloc_dict_fresh d s) as Hfr.
  pose proof (alloc_dict_dom d s) as Hdom.
  pose proof (alloc_dict_lookup d s) as Hnew.
  destruct (alloc_dict d s) as [l s1] eqn:E1. cbn [fst snd] in *.
  assert (Hfrm : ∀ l', l' ∈ dom (st_heap s) → st_heap s1 !! l' = st_heap s !! l').
  { intros l' Hin. pose proof (alloc_dict_frame d s l' Hin) as Hf.
    by rewrite E1 in Hf. }
  assert (Happ : st_app s1 = st_app s).
  { pose proof (alloc_dict_app d s) as Ha. by rewrite E1 in Ha. }
  destruct (IH s1) as (IHa & IHf & IHd & IHn & IHu).
  destruct (call_n (alloc_dict d) n s1) as [ls s2] eqn:E2. cbn [fst snd] in *.
  assert (Hsub : ∀ x, x ∈ dom (st_heap s) → x ∈ dom (st_heap s1)).
  { intros x Hx. rewrite Hdom. by apply elem_of_union_r. }
  split_and!.
  - congruence.
  - intros l' Hin. rewrite IHf; [by apply Hfrm | by apply Hsub].
  - intros x Hx. by apply IHd, Hsub.
  - intros l0 [->|Hin]%elem_of_cons; [done |].
    intros Hx. by apply (IHn l0 Hin), Hsub.
  - constructor; [| done].
    intros Hin. apply (IHn l Hin). rewrite Hdom.
    by apply elem_of_union_l, elem_of_singleton.
Qed.

End Handlers.

(** ** Routing on the application of the module *)

Section Routing.

Example app_route_paths :
  route_path <$> routes app =
    ["/openapi.json"; "/docs"; "/docs/oauth2-redirect"; "/redoc";
     "/"; "/health"].
Proof. reflexivity. Qed.

Lemma dispatch_get_root : dispatch app "GET" "/" = ToEndpoint EpRoot.
Proof. vm_compute. reflexivity. Qed.

Lemma dispatch_get_health :
  dispatch app "GET" "/health" = ToEndpoint EpHealthCheck.
Proof. vm_compute. reflexivity. Qed.

(** Serving keeps the module global. *)
Lemma handle_request_app req s :
  st_app (handle_request req s).2 = st_app s.
Proof.
  unfold handle_request.
  destruct (dispatch _ _ _) as [[]| | |]; reflexivity.
Qed.

Lemma serve_app reqs s : st_app (serve reqs s).2 = st_app s.
Proof.
  revert s. induction reqs as [|r rs IH]; intros s; cbn [serve]; [done|].
  pose proof (handle_request_app r s) as H1.
  destruct (handle_request r s) as [x s1]. cbn in H1.
  specialize (IH s1). destruct (serve rs s1) as [xs s2]. cbn in *. congruence.
Qed.

(** Every state a started process goes through is a booted one. *)
Lemma serve_boot reqs h0 : ∃ h, (serve reqs (boot h0)).2 = boot h.
Proof.
  pose proof (serve_app reqs (boot h0)) as H.
  destruct (serve reqs (boot h0)).2 as [a h]. cbn in H. subst a. by exists h.
Qed.

Lemma handle_get_root q hs b h0 :
  handle_request (Request "GET" "/" q hs b) (boot h0) =
    (root_response, boot (<[fresh (dom h0) := root_payload]> h0)).
Proof.
  unfold handle_request. cbn [method path st_app boot].
  rewrite dispatch_get_root. unfold run_endpoint, root.
  rewrite alloc_dict_eq. unfold serialize_response. cbn [st_heap st_app].
  by rewrite lookup_insert_eq.
Qed.

Lemma handle_get_health q hs b h0 :
  handle_request (Request "GET" "/health" q hs b) (boot h0) =
    (health_response, boot (<[fresh (dom h0) := health_payload]> h0)).
Proof.
  unfold handle_request. cbn [method path st_app boot].
  rewrite dispatch_get_health. unfold run_endpoint, health_check.
  rewrite alloc_dict_eq. unfold serialize_response. cbn [st_heap st_app].
  by rewrite lookup_insert_eq.
Qed.

(** Repeating a request whose response does not depend on the store. *)
Lemma serve_replicate req resp n :
  (∀ h, (handle_request req (boot h)).1 = resp) →
  ∀ h0, (serve (replicate n req) (boot h0)).1 = replicate n resp.
Proof.
  intros Hresp. induction n as [|n IH]; intros h0; cbn [replicate serve]; [done|].
  pose proof (Hresp h0) as Hx.
  pose proof (handle_request_app req (boot h0)) as Ha.
  destruct (handle_request req (boot h0)) as [x [a h1]]. cbn in Hx, Ha. subst.
  specialize (IH h1). change (State app h1) with (boot h1).
  destruct (serve (replicate n req) (boot h1)) as [xs s2]. cbn in *. by subst.
Qed.

End Routing.

(** ** The two endpoints *)

(** C1. Every [GET /] is answered with status 200 and the JSON object
    [{"message": "Brixsport Analytics Service"}]: the handler [root]
    returns a dict with exactly that content in every state, and whatever
    the process has served before ([hist]) and whatever else the request
    carries, the response has status 200 and that body; [n] such requests
    in a row get [n] such responses. *)
Theorem root_always_ok :
  ∀ (s : state) (h0 : heap) (hist : list request) (n : nat)
    (q : string) (hs : list (string * string)) (b : string),
    st_heap (root s).2 !! (root s).1
      = Some ({[ "message" := "Brixsport Analytics Service" ]} : pydict)
    ∧ status_code (run h0 hist (Request "GET" "/" q hs b)) = 200
    ∧ body (run h0 hist (Request "GET" "/" q hs b))
        = JSONBody {[ "message" := "Brixsport Analytics Service" ]}
    ∧ (serve (replicate n (Request "GET" "/" q hs b))
         (serve hist (boot h0)).2).1
        = replicate n root_response.
Proof.
  intros s h0 hist n q hs b.
  split; [apply alloc_dict_lookup |].
  unfold run. destruct (serve_boot hist h0) as [h ->].
  rewrite handle_get_root. split_and!; [done | done |].
  apply serve_replicate. intros h'. by rewrite handle_get_root.
Qed.

(** C2. Every [GET /health] is answered with status 200 and the JSON
    object [{"status": "OK"}]: the handler [health_check] returns a dict
    with exactly that content in every state, and the response has status
    200 and that body after any history and for any number of calls. *)
Theorem health_always_ok :
  ∀ (s : state) (h0 : heap) (hist : list request) (n : nat)
    (q : string) (hs : list (string * string)) (b : string),
    st_heap (health_check s).2 !! (health_check s).1
      = Some ({[ "status" := "OK" ]} : pydict)
    ∧ status_code (run h0 hist (Request "GET" "/health" q hs b)) = 200
    ∧ body (run h0 hist (Request "GET" "/health" q hs b))
        = JSONBody {[ "status" := "OK" ]}
    ∧ (serve (replicate n (Request "GET" "/health" q hs b))
         (serve hist (boot h0)).2).1
        = replicate n health_response.
Proof.
  intros s h0 hist n q hs b.
  split; [apply alloc_dict_lookup |].
  unfold run. destruct (serve_boot hist h0) as [h ->].
  rewrite handle_get_health. split_and!; [done | done |].
  apply serve_replicate. intros h'. by rewrite handle_get_health.
Qed.

(** C3. Neither handler has a side effect.  From any state and for any
    number of calls in a row, [root] and [health_check] leave the module
    global and every object that was alive as they were; each call returns
    a dict that did not exist before the call, so no two calls share their
    payload and none is served from a cache. *)
Theorem handlers_only_allocate :
  ∀ (s : state) (n : nat),
    only_allocates root n s ∧ only_allocates health_check n s.
Proof.
  intros s n. unfold only_allocates, root, health_check.
  split.
  - destruct (call_n_alloc root_payload n s) as (Ha & Hf & _ & Hn & Hu).
    by split_and!.
  - destruct (call_n_alloc health_payload n s) as (Ha & Hf & _ & Hn & Hu).
    by split_and!.
Qed.

(** ** What the router does with everything else *)

Section Router.

Implicit Types (r : route) (rs : list route) (m p : string).

Lemma path_matches_spec rp p :
  path_matches rp p = true ↔ p = rp ∨ p = rp +:+ newline.
Proof.
  unfold path_matches. rewrite orb_true_iff, !bool_decide_eq_true. done.
Qed.

Lemma matches_NONE r m p :
  path_matches (route_path r) p = false → matches r m p = NONE.
Proof. intros H. unfold matches. by rewrite H. Qed.

Lemma matches_PARTIAL r m p :
  path_matches (route_path r) p = true → m ∉ route_methods r →
  matches r m p = PARTIAL.
Proof.
  intros Hp Hm. unfold matches. by rewrite Hp, bool_decide_eq_false_2.
Qed.

Lemma matches_path r m p :
  matches r m p ≠ NONE → path_matches (route_path r) p = true.
Proof. unfold matches. by destruct (path_matches _ _). Qed.

Lemma matches_FULL r m p :
  matches r m p = FULL
  ↔ path_matches (route_path r) p = true ∧ m ∈ route_methods r.
Proof.
  unfold matches. destruct (path_matches _ _); [| by split; [| intros []]].
  case_bool_decide; split; try done; by intros [].
Qed.

Lemma first_match_None want m p rs :
  Forall (λ r, matches r m p ≠ want) rs → first_match want m p rs = None.
Proof.
  induction 1 as [|r rs Hr _ IH]; cbn [first_match]; [done |].
  by rewrite bool_decide_eq_false_2.
Qed.

Lemma first_match_Some want m p rs :
  Exists (λ r, matches r m p = want) rs →
  is_Some (first_match want m p rs).
Proof.
  induction 1 as [r rs Hr | r rs _ IH]; cbn [first_match].
  - rewrite bool_decide_eq_true_2; eauto.
  - case_bool_decide; eauto.
Qed.

(** No route matches the path: none has it, alone or before a newline. *)
Lemma any_match_false m p rs :
  any_match m p rs = false
  ↔ Forall (λ r, path_matches (route_path r) p = false) rs.
Proof.
  induction rs as [|r rs IH]; cbn [any_match]; [by split |].
  rewrite Forall_cons, <- IH. case_bool_decide as Hr.
  - split; [| by intros []]. intros Hrs. split; [| done].
    destruct (path_matches (route_path r) p) eqn:E; [| done].
    unfold matches in Hr. rewrite E in Hr. by case_bool_decide.
  - split; [done |]. intros [Hp _]. by rewrite matches_NONE in Hr.
Qed.

Lemma no_path_no_match want m p rs :
  want ≠ NONE → any_match m p rs = false →
  Forall (λ r, matches r m p ≠ want) rs.
Proof.
  intros Hw Hp%any_match_false. eapply Forall_impl; [exact Hp |].
  intros r Hr Hm. cbn in Hr. rewrite matches_NONE in Hm by done. congruence.
Qed.

(** A path that no route matches, and whose slash-toggled form no route
    matches, reaches the default handler. *)
Lemma dispatch_NotFound a m p :
  any_match m p (routes a) = false →
  any_match m (toggle_slash p) (routes a) = false →
  dispatch a m p = NotFound.
Proof.
  intros Hp Ht. unfold dispatch.
  rewrite !first_match_None by (by apply no_path_no_match).
  rewrite Ht. by rewrite andb_false_r.
Qed.

(** A path that some route matches, met with a method that none of the
    routes matching the path accepts, is refused. *)
Lemma dispatch_MethodNotAllowed a m p :
  Exists (λ r, path_matches (route_path r) p = true) (routes a) →
  Forall (λ r, path_matches (route_path r) p = true → m ∉ route_methods r)
    (routes a) →
  dispatch a m p = MethodNotAllowed.
Proof.
  intros Hp Hm. unfold dispatch.
  rewrite first_match_None.
  2:{ eapply Forall_impl; [exact Hm |]. intros r Hr [Hpath Hin]%matches_FULL.
      by apply Hr. }
  destruct (first_match_Some PARTIAL m p (routes a)) as [r' ->]; [| done].
  rewrite Forall_forall in Hm. apply Exists_exists in Hp as (r & Hr & Hpath).
  apply Exists_exists. exists r. split; [done |].
  apply matches_PARTIAL; [done | by apply Hm].
Qed.

Lemma routes_app :
  routes app =
    [Route "/openapi.json" ["GET"; "HEAD"] EpOpenapi;
     Route "/docs" ["GET"; "HEAD"] EpSwaggerUiHtml;
     Route "/docs/oauth2-redirect" ["GET"; "HEAD"] EpSwaggerUiRedirect;
     Route "/redoc" ["GET"; "HEAD"] EpRedocHtml;
     Route "/" ["GET"] EpRoot;
     Route "/health" ["GET"] EpHealthCheck].
Proof. reflexivity. Qed.

(** On a path that only a [GET] route of the application matches, any
    other method is refused. *)
Lemma dispatch_app_other_method m p :
  m ≠ "GET" → p = "/" ∨ p = "/health" →
  dispatch app m p = MethodNotAllowed.
Proof.
  intros Hm Hp. apply dispatch_MethodNotAllowed; rewrite routes_app.
  - destruct Hp as [-> | ->]; apply (bool_decide_unpack _);
      vm_compute; exact I.
  - destruct Hp as [-> | ->];
      repeat apply Forall_cons_2; try apply Forall_nil_2;
      intros Hpath; try (by vm_compute in Hpath);
      cbn; by intros ?%list_elem_of_singleton.
Qed.

(** The paths some route of the application matches. *)
Lemma any_match_app m p :
  any_match m p (routes app) = false
  ↔ (p ∉ ["/openapi.json"; "/docs"; "/docs/oauth2-redirect"; "/redoc";
          "/"; "/health"])
    ∧ (p ∉ (λ rp : string, rp +:+ newline)
           <$> ["/openapi.json"; "/docs"; "/docs/oauth2-redirect";
                "/redoc"; "/"; "/health"]).
Proof.
  rewrite any_match_false, routes_app, !Forall_cons.
  cbn [route_path fmap list_fmap].
  rewrite !not_elem_of_cons.
  assert (Hpm : ∀ rp, path_matches rp p = false
                      ↔ p ≠ rp ∧ p ≠ rp +:+ newline).
  { intros rp. rewrite <- not_true_iff_false, path_matches_spec. tauto. }
  rewrite !Hpm. pose proof (not_elem_of_nil (A:=string) p).
  pose proof (Forall_nil_2 (λ r : route, path_matches (route_path r) p = false)).
  tauto.
Qed.

End Router.

(** C4, amended.  A [GET] on a path that no route of the application
    matches (neither the two routes of the module nor the four installed
    by the constructor), and whose slash-toggled form no route matches
    either, gets status 404 from the router's default handling: no
    endpoint is called and the state is as before. *)
Theorem unmatched_path_not_found :
  ∀ (p q : string) (hs : list (string * string)) (b : string) (h0 : heap),
    any_match "GET" p (routes app) = false →
    any_match "GET" (toggle_slash p) (routes app) = false →
    status_code (handle_request (Request "GET" p q hs b) (boot h0)).1 = 404
    ∧ served_by (handle_request (Request "GET" p q hs b) (boot h0)).1 = None
    ∧ (handle_request (Request "GET" p q hs b) (boot h0)).2 = boot h0.
Proof.
  intros p q hs b h0 Hp Ht.
  unfold handle_request. cbn [method path st_app boot].
  by rewrite dispatch_NotFound.
Qed.

(** C5. On the path [/], every method other than [GET] is refused with
    status 405, which is not 200; the refusal is the router's, [root] is
    not called and the state is as before. *)
Theorem other_method_on_root_not_allowed :
  ∀ (m q : string) (hs : list (string * string)) (b : string) (h0 : heap),
    m ≠ "GET" →
    status_code (handle_request (Request m "/" q hs b) (boot h0)).1 = 405
    ∧ status_code (handle_request (Request m "/" q hs b) (boot h0)).1 ≠ 200
    ∧ served_by (handle_request (Request m "/" q hs b) (boot h0)).1 = None
    ∧ (handle_request (Request m "/" q hs b) (boot h0)).2 = boot h0.
Proof.
  intros m q hs b h0 Hm.
  unfold handle_request. cbn [method path st_app boot].
  rewrite dispatch_app_other_method; [done | done | by left].
Qed.

(** ** Independence from the process and from the request *)

(** The response to a request does not depend on the store it is served
    in. *)
Lemma handle_request_alone req h : (handle_request req (boot h)).1 = alone req.
Proof.
  unfold alone, handle_request. cbn [st_app boot].
  destruct (dispatch app (method req) (path req)) as [e| | |]; try done.
  destruct e; try done; unfold run_endpoint, root, health_check;
    rewrite !alloc_dict_eq; unfold serialize_response; cbn [st_heap fst];
    by rewrite !lookup_insert_eq.
Qed.

Lemma run_alone h0 hist req : run h0 hist req = alone req.
Proof.
  unfold run. destruct (serve_boot hist h0) as [h ->].
  apply handle_request_alone.
Qed.

Lemma serve_lookup reqs h0 i req :
  reqs !! i = Some req → (serve reqs (boot h0)).1 !! i = Some (alone req).
Proof.
  revert h0 i. induction reqs as [|r rs IH]; intros h0 i Hi; [done |].
  cbn [serve].
  pose proof (handle_request_alone r h0) as Hx.
  pose proof (handle_request_app r (boot h0)) as Ha.
  destruct (handle_request r (boot h0)) as [x [a h1]]. cbn in Hx, Ha. subst a.
  change (State app h1) with (boot h1).
  specialize (IH h1). destruct (serve rs (boot h1)) as [xs s2]. cbn [fst] in *.
  destruct i as [|i]; cbn in *; [congruence | by apply IH].
Qed.

(** C6, amended.  Two runs of the process answer [GET /] with the same
    status and the same body, and so for [GET /health], whatever objects
    the interpreter starts with, whatever each run has served before and
    whatever the clocks show; the body being the same value, its bytes
    are the same.  What is written to the wire is the same in both runs
    exactly when the [Date] headers are: the two responses differ in
    nothing else. *)
Theorem restart_same_status_and_body :
  ∀ (now1 now2 : Z) (h1 h2 : heap) (hist1 hist2 : list request)
    (p q : string) (hs : list (string * string)) (b : string),
    p = "/" ∨ p = "/health" →
    status_code (payload (on_wire now1 (run h1 hist1 (Request "GET" p q hs b))))
      = status_code
          (payload (on_wire now2 (run h2 hist2 (Request "GET" p q hs b))))
    ∧ body (payload (on_wire now1 (run h1 hist1 (Request "GET" p q hs b))))
      = body (payload (on_wire now2 (run h2 hist2 (Request "GET" p q hs b))))
    ∧ (on_wire now1 (run h1 hist1 (Request "GET" p q hs b))
         = on_wire now2 (run h2 hist2 (Request "GET" p q hs b))
       ↔ now1 = now2).
Proof.
  intros now1 now2 h1 h2 hist1 hist2 p q hs b Hp.
  rewrite !run_alone. split_and!; [done | done |].
  unfold on_wire. split; [by intros [=] | by intros ->].
Qed.



Lemma get_root_alone q hs b : alone (Request "GET" "/" q hs b) = root_response.
Proof. by rewrite <- (handle_request_alone _ ∅), handle_get_root. Qed.

Lemma get_health_alone q hs b :
  alone (Request "GET" "/health" q hs b) = health_response.
Proof. by rewrite <- (handle_request_alone _ ∅), handle_get_health. Qed.

(** C10. Nothing of a request flows into the response of either
    endpoint.  The handlers have no parameters, and two [GET] requests on
    the same one of the two paths get the same response whatever their
    query strings, headers (cookies among them) and bodies are, and
    whenever and in whichever run they arrive. *)
Theorem request_content_ignored :
  ∀ (r1 r2 : request) (h1 h2 : heap) (hist1 hist2 : list request),
    method r1 = "GET" → method r2 = "GET" →
    path r1 = path r2 →
    path r1 = "/" ∨ path r1 = "/health" →
    run h1 hist1 r1 = run h2 hist2 r2.
Proof.
  intros [m1 p1 q1 hs1 b1] [m2 p2 q2 hs2 b2] h1 h2 hist1 hist2.
  cbn [method path]. intros -> -> <- Hp.
  rewrite !run_alone.
  destruct Hp as [-> | ->];
    by rewrite ?get_root_alone, ?get_health_alone.
Qed.

(** ** Requests served concurrently *)

Section Concurrent.

Implicit Types (s : state) (t : task) (req : request)
  (reqs : list request) (ps : list task * state) (sched : list nat).

Lemma extends_refl s : extends s s.
Proof. by split. Qed.

Lemma extends_alloc d s : extends s (alloc_dict d s).2.
Proof.
  split; [done |]. intros l x Hl.
  rewrite alloc_dict_frame; [done |]. apply elem_of_dom. by exists x.
Qed.

Lemma task_ok_extends s s' req t :
  extends s s' → task_ok s req t → task_ok s' req t.
Proof.
  intros [_ Hobj]. destruct t as [r | e l | r]; cbn; [done | | done].
  intros (d & Hl & Hr). exists d. split; [by apply Hobj | done].
Qed.

(** One step of one request: the state only grows, the request stays on
    its way, and it gets further unless it is answered already. *)
Lemma step_task_ok s req t :
  st_app s = app → task_ok s req t →
  extends s (step_task t s).2
  ∧ task_ok (step_task t s).2 req (step_task t s).1
  ∧ (stage (step_task t s).1 ≥ stage t `min` 1 + 1)%nat.
Proof.
  intros Happ Hok. destruct t as [r | e l | r]; cbn in Hok.
  - subst r. unfold step_task. rewrite Happ.
    pose proof (handle_request_alone req ∅) as Halone.
    unfold handle_request in Halone. cbn [st_app boot] in Halone.
    destruct (dispatch app (method req) (path req)) as [e| | |];
      [| by (split_and!; [apply extends_refl | done | cbn; lia]) ..].
    destruct e;
      try by (split_and!; [apply extends_refl | done | cbn; lia]).
    + unfold root. pose proof (alloc_dict_lookup root_payload s) as Hl.
      pose proof (extends_alloc root_payload s) as He.
      destruct (alloc_dict root_payload s) as [l s'].
      split_and!; [done | | cbn; lia].
      exists root_payload. split; [done |]. by rewrite <- Halone.
    + unfold health_check.
      pose proof (alloc_dict_lookup health_payload s) as Hl.
      pose proof (extends_alloc health_payload s) as He.
      destruct (alloc_dict health_payload s) as [l s'].
      split_and!; [done | | cbn; lia].
      exists health_payload. split; [done |]. by rewrite <- Halone.
  - destruct Hok as (d & Hl & Hr). cbn [step_task fst snd].
    split_and!; [apply extends_refl | | cbn; lia].
    cbn. unfold serialize_response. by rewrite Hl.
  - cbn. split_and!; [apply extends_refl | done | lia].
Qed.

Lemma step_task_extends t s : extends s (step_task t s).2.
Proof.
  destruct t as [r | e l | r]; cbn; try apply extends_refl.
  destruct (dispatch _ _ _) as [[]| | |]; try apply extends_refl.
  - exact (extends_alloc root_payload s).
  - exact (extends_alloc health_payload s).
Qed.

Lemma pool_ok_init reqs h0 : pool_ok reqs (Accepted <$> reqs, boot h0).
Proof.
  split; [done |]. intros i req Hi. exists (Accepted req). cbn.
  split; [| done]. by rewrite list_lookup_fmap, Hi.
Qed.

(** A turn of the loop keeps every request of the pool on its way. *)
Lemma step_pool_ok reqs ps j : pool_ok reqs ps → pool_ok reqs (step_pool j ps).
Proof.
  destruct ps as [pool s]. intros [Happ Hpool]. unfold step_pool.
  cbn [fst snd] in *. destruct (pool !! j) as [t|] eqn:Hj; [| by split].
  pose proof (step_task_extends t s) as Hext.
  destruct (step_task t s) as [t' s'] eqn:Hstep. cbn [fst snd] in *.
  split; [cbn; destruct Hext; congruence |].
  intros i req Hi. destruct (Hpool i req Hi) as (ti & Hti & Hok). cbn.
  destruct (decide (j = i)) as [-> | Hne].
  - exists t'. split.
    + apply list_lookup_insert_eq. by eapply lookup_lt_Some.
    + assert (ti = t) as -> by congruence.
      destruct (step_task_ok s req t Happ Hok) as (_ & Hok' & _).
      by rewrite Hstep in Hok'.
  - exists ti. split; [by rewrite list_lookup_insert_ne |].
    by eapply task_ok_extends.
Qed.

(** A turn moves the request it is given forward and no request back. *)
Lemma step_pool_stage reqs ps i j req :
  pool_ok reqs ps → reqs !! i = Some req →
  (stage_at i (step_pool j ps)
     ≥ if decide (j = i) then stage_at i ps `min` 1 + 1 else stage_at i ps)%nat.
Proof.
  destruct ps as [pool s]. intros [Happ Hpool] Hi.
  destruct (Hpool i req Hi) as (ti & Hti & Hok).
  unfold step_pool, stage_at. cbn [fst snd] in *.
  destruct (decide (j = i)) as [-> | Hne].
  - rewrite Hti.
    destruct (step_task_ok s req ti Happ Hok) as (_ & _ & Hst).
    destruct (step_task ti s) as [t' s']. cbn [fst snd] in *.
    rewrite list_lookup_insert_eq by (by eapply lookup_lt_Some). cbn. lia.
  - destruct (pool !! j) as [t|]; [| cbn; lia].
    destruct (step_task t s) as [t' s']. cbn [fst].
    rewrite list_lookup_insert_ne by done. lia.
Qed.

Lemma run_schedule_ok reqs sched ps :
  pool_ok reqs ps → pool_ok reqs (run_schedule sched ps).
Proof.
  revert ps. induction sched as [|j sched IH]; intros ps Hok; [done |].
  apply IH. by apply step_pool_ok.
Qed.

Lemma turns_cons i j sched :
  turns i (j :: sched)
    = if decide (j = i) then S (turns i sched) else turns i sched.
Proof. unfold turns. rewrite filter_cons. by case_decide. Qed.

(** Two turns are all a request ever needs. *)
Lemma run_schedule_stage reqs sched ps i req :
  pool_ok reqs ps → reqs !! i = Some req →
  (stage_at i (run_schedule sched ps)
     ≥ (stage_at i ps + turns i sched) `min` 2)%nat.
Proof.
  revert ps. induction sched as [|j sched IH]; intros ps Hok Hi.
  - cbn. unfold turns. cbn.
    destruct Hok as [_ Hpool]. destruct (Hpool i req Hi) as (t & Ht & _).
    unfold stage_at. rewrite Ht. destruct t; cbn; lia.
  - change (run_schedule (j :: sched) ps)
      with (run_schedule sched (step_pool j ps)).
    specialize (IH (step_pool j ps) (step_pool_ok reqs ps j Hok) Hi).
    pose proof (step_pool_stage reqs ps i j req Hok Hi) as Hst.
    rewrite turns_cons. destruct (decide (j = i)); lia.
Qed.

End Concurrent.

(** C9. Concurrent requests do not interfere.  Take any pool of requests
    in flight in one process and any schedule of the event loop, that is
    any interleaving of their stages.  The request in slot [i] can only be
    answered with the response it gets when the pool is served one request
    after the other, which is the response it would get alone; it is
    answered with it as soon as the schedule gives it two turns (no
    handler blocks); and for a [GET /health] that response is the health
    response, so any two of them get identical bodies. *)
Theorem concurrent_same_as_sequential :
  ∀ (reqs : list request) (h0 : heap) (sched : list nat) (i : nat)
    (req : request),
    reqs !! i = Some req →
    (serve reqs (boot h0)).1 !! i = Some (alone req)
    ∧ (∀ r, (run_schedule sched (Accepted <$> reqs, boot h0)).1 !! i
              = Some (Sent r) → r = alone req)
    ∧ ((2 ≤ turns i sched)%nat →
       (run_schedule sched (Accepted <$> reqs, boot h0)).1 !! i
         = Some (Sent (alone req)))
    ∧ (method req = "GET" → path req = "/health" →
       alone req = health_response).
Proof.
  intros reqs h0 sched i req Hi.
  pose proof (run_schedule_ok reqs sched _ (pool_ok_init reqs h0)) as [_ Hpool].
  destruct (Hpool i req Hi) as (t & Ht & Hok).
  split_and!.
  - by apply serve_lookup.
  - intros r Hr. rewrite Hr in Ht. by injection Ht as <-.
  - intros Hturns.
    pose proof (run_schedule_stage reqs sched _ i req
                  (pool_ok_init reqs h0) Hi) as Hst.
    unfold stage_at in Hst. rewrite Ht in Hst. rewrite Ht.
    destruct t as [r | e l | r]; cbn in Hst, Hok; [lia | lia | by subst].
  - destruct req as [m p q hs b]. cbn [method path]. by intros -> ->.
Qed.

(** ** Further properties of the service *)

Section Further.

Implicit Types (r : route) (rs : list route) (m p : string)
  (req : request) (s : state).

Lemma first_match_inv want m p rs r :
  first_match want m p rs = Some r → r ∈ rs ∧ matches r m p = want.
Proof.
  induction rs as [|r0 rs IH]; cbn [first_match]; [done |].
  case_bool_decide as Hm.
  - intros [= ->]. split; [apply list_elem_of_here | done].
  - intros [Hin Hr]%IH. split; [by apply list_elem_of_further | done].
Qed.

(** A request is handed to an endpoint only through a route that matches
    its path and accepts its method. *)
Lemma dispatch_ToEndpoint_inv a m p e :
  dispatch a m p = ToEndpoint e →
  ∃ r, r ∈ routes a ∧ route_endpoint r = e
       ∧ path_matches (route_path r) p = true ∧ m ∈ route_methods r.
Proof.
  unfold dispatch.
  destruct (first_match FULL m p (routes a)) as [r|] eqn:Hfull.
  - intros [= <-]. apply first_match_inv in Hfull as [Hin Hm].
    apply matches_FULL in Hm as [Hp Hm]. by exists r.
  - destruct (first_match PARTIAL m p (routes a)); [done |].
    by case (_ && _).
Qed.

(** The response of a request, by the decision of the router. *)
Lemma alone_cases req :
  alone req =
    match dispatch app (method req) (path req) with
    | ToEndpoint EpRoot => root_response
    | ToEndpoint EpHealthCheck => health_response
    | ToEndpoint e => builtin_response e app
    | MethodNotAllowed => method_not_allowed
    | RedirectSlashes p => redirect req p
    | NotFound => not_found
    end.
Proof.
  unfold alone, handle_request. cbn [st_app boot].
  destruct (dispatch app (method req) (path req)) as [[]| | |]; reflexivity.
Qed.

(** X1. On the path [/health], every method other than [GET] is refused
    with status 405: the route of line 13 is registered for [GET] only, so
    a probe that sends [HEAD] or [POST] is not answered by
    [health_check], and the state is as before. *)
Theorem other_method_on_health_not_allowed :
  ∀ (m q : string) (hs : list (string * string)) (b : string) (h0 : heap),
    m ≠ "GET" →
    status_code (handle_request (Request m "/health" q hs b) (boot h0)).1
      = 405
    ∧ served_by (handle_request (Request m "/health" q hs b) (boot h0)).1
      = None
    ∧ (handle_request (Request m "/health" q hs b) (boot h0)).2 = boot h0.
Proof.
  intros m q hs b h0 Hm.
  unfold handle_request. cbn [method path st_app boot].
  rewrite dispatch_app_other_method; [done | done | by right].
Qed.

(** The routes that lead to the two handlers. *)
Lemma handler_route m p e :
  dispatch app m p = ToEndpoint e →
  (e = EpRoot → m = "GET" ∧ path_matches "/" p = true)
  ∧ (e = EpHealthCheck → m = "GET" ∧ path_matches "/health" p = true).
Proof.
  intros (r & Hin & He & Hp & Hm)%dispatch_ToEndpoint_inv.
  rewrite routes_app in Hin.
  repeat (apply elem_of_cons in Hin as [-> | Hin]);
    [.. | by apply elem_of_nil in Hin];
    cbn in He, Hp, Hm; subst e; (split; [intros [=] | intros [=]]);
    by apply list_elem_of_singleton in Hm.
Qed.

(** X3. The handlers are reached by their own route and by nothing else.
    A response comes from [root] exactly when the request is a [GET]
    whose path is [/], alone or followed by one newline, and from
    [health_check] exactly when it is a [GET] whose path is [/health],
    alone or followed by one newline: no other method, no redirect and
    none of the framework's routes leads to them. *)
Theorem handlers_reached_only_by_their_route :
  ∀ (h0 : heap) (hist : list request) (req : request),
    (served_by (run h0 hist req) = Some EpRoot
       ↔ method req = "GET"
         ∧ (path req = "/" ∨ path req = "/" +:+ newline))
    ∧ (served_by (run h0 hist req) = Some EpHealthCheck
       ↔ method req = "GET"
         ∧ (path req = "/health" ∨ path req = "/health" +:+ newline)).
Proof.
  intros h0 hist req. rewrite run_alone, alone_cases.
  rewrite <- !path_matches_spec.
  pose proof (handler_route (method req) (path req)) as Hroute.
  split; split.
  - destruct (dispatch app (method req) (path req)) as [e| | |];
      [| done | by unfold redirect; case (redirect_url _ _) | done].
    destruct e; try done. intros _. by destruct (Hroute EpRoot) as [[] _].
  - destruct req as [m p q hs b]. cbn [method path].
    intros [-> [-> | ->]%path_matches_spec]; reflexivity.
  - destruct (dispatch app (method req) (path req)) as [e| | |];
      [| done | by unfold redirect; case (redirect_url _ _) | done].
    destruct e; try done. intros _.
    by destruct (Hroute EpHealthCheck) as [_ []].
  - destruct req as [m p q hs b]. cbn [method path].
    intros [-> [-> | ->]%path_matches_spec]; reflexivity.
Qed.

Lemma extends_trans s1 s2 s3 : extends s1 s2 → extends s2 s3 → extends s1 s3.
Proof.
  intros [Ha1 Ho1] [Ha2 Ho2]. split; [congruence |].
  intros l d Hl. by apply Ho2, Ho1.
Qed.

Lemma handle_request_extends req s : extends s (handle_request req s).2.
Proof.
  unfold handle_request.
  destruct (dispatch _ _ _) as [[]| | |]; try apply extends_refl.
  - exact (extends_alloc root_payload s).
  - exact (extends_alloc health_payload s).
Qed.

Lemma serve_extends reqs s : extends s (serve reqs s).2.
Proof.
  revert s. induction reqs as [|r rs IH]; intros s; cbn [serve].
  { apply extends_refl. }
  pose proof (handle_request_extends r s) as H1.
  destruct (handle_request r s) as [x s1]. cbn [snd] in H1.
  specialize (IH s1). destruct (serve rs s1) as [xs s2]. cbn [snd] in *.
  by eapply extends_trans.
Qed.

Lemma step_pool_extends i ps : extends ps.2 (step_pool i ps).2.
Proof.
  destruct ps as [pool s]. unfold step_pool. cbn [fst snd].
  destruct (pool !! i) as [t|]; [| apply extends_refl].
  pose proof (step_task_extends t s) as H.
  by destruct (step_task t s).
Qed.

Lemma run_schedule_extends sched ps : extends ps.2 (run_schedule sched ps).2.
Proof.
  revert ps. induction sched as [|i sched IH]; intros ps.
  { apply extends_refl. }
  change (run_schedule (i :: sched) ps)
    with (run_schedule sched (step_pool i ps)).
  eapply extends_trans; [apply step_pool_extends | apply IH].
Qed.

(** X4. Serving never writes to an object that is alive.  Whatever the
    requests, served one after the other or interleaved by any schedule
    and from any state, every dict keeps its contents: the dict handed
    out for an earlier response is never changed by a later request. *)
Theorem serving_keeps_objects :
  ∀ (s : state) (reqs : list request) (sched : list nat) (pool : list task)
    (l : loc) (d : pydict),
    st_heap s !! l = Some d →
    st_heap (serve reqs s).2 !! l = Some d
    ∧ st_heap (run_schedule sched (pool, s)).2 !! l = Some d.
Proof.
  intros s reqs sched pool l d Hl. split.
  - by apply (serve_extends reqs s).
  - by apply (run_schedule_extends sched (pool, s)).
Qed.

Lemma first_match_cat want m p rs1 rs2 :
  first_match want m p (rs1 ++ rs2) =
    match first_match want m p rs1 with
    | Some r => Some r
    | None => first_match want m p rs2
    end.
Proof.
  induction rs1 as [|r rs1 IH]; cbn [first_match Datatypes.app]; [done |].
  by case_bool_decide.
Qed.

Lemma any_match_cat m p rs1 rs2 :
  any_match m p (rs1 ++ rs2) = any_match m p rs1 || any_match m p rs2.
Proof.
  induction rs1 as [|r rs1 IH]; cbn [any_match Datatypes.app]; [done |].
  by case_bool_decide.
Qed.

(** No path is matched by both routes of the module. *)
Lemma handler_paths_apart p :
  path_matches "/" p = true → path_matches "/health" p = true → False.
Proof.
  intros [-> | ->]%path_matches_spec [H | H]%path_matches_spec;
    discriminate H.
Qed.

Lemma first_match_swap want m p f1 f2 :
  want ≠ NONE →
  first_match want m p [Route "/" ["GET"] f1; Route "/health" ["GET"] f2]
    = first_match want m p [Route "/health" ["GET"] f2; Route "/" ["GET"] f1].
Proof.
  intros Hw. cbn [first_match].
  case_bool_decide as H1; case_bool_decide as H2; try done.
  destruct (handler_paths_apart p).
  - apply (matches_path (Route "/" ["GET"] f1) m). congruence.
  - apply (matches_path (Route "/health" ["GET"] f2) m). congruence.
Qed.

Lemma any_match_swap m p r1 r2 :
  any_match m p [r1; r2] = any_match m p [r2; r1].
Proof. cbn [any_match]. by repeat case_bool_decide. Qed.

(** The router decides alike for the two orders of the handlers. *)
Lemma dispatch_other_order m p :
  dispatch app_other_order m p = dispatch app m p.
Proof.
  unfold dispatch, app_other_order, app, get, add_api_route. cbn [routes].
  rewrite <- !(assoc_L (++)). cbn [Datatypes.app].
  rewrite !first_match_cat, !any_match_cat.
  rewrite (first_match_swap FULL m p) by done.
  rewrite (first_match_swap PARTIAL m p) by done.
  by rewrite (any_match_swap m (toggle_slash p) (Route "/" ["GET"] EpRoot)).
Qed.

(** X5. The order of the two decorated definitions does not matter to
    the routing.  Had the module defined [health_check] (lines 13-15)
    before [root] (lines 9-11), the router would decide every request as
    it does now, and every request that is not answered with one of the
    generated documentation pages would get the response it gets now and
    leave the same objects behind: no path is matched by both routes. *)
Theorem handler_order_irrelevant :
  ∀ (req : request) (h : heap),
    dispatch app_other_order (method req) (path req)
      = dispatch app (method req) (path req)
    ∧ (served_by (handle_request req (boot h)).1
         ∈ [None; Some EpRoot; Some EpHealthCheck] →
       (handle_request req (State app_other_order h)).1
         = (handle_request req (boot h)).1
       ∧ st_heap (handle_request req (State app_other_order h)).2
         = st_heap (handle_request req (boot h)).2).
Proof.
  intros req h. split; [apply dispatch_other_order |].
  unfold handle_request. cbn [st_app boot].
  rewrite dispatch_other_order.
  destruct (dispatch app (method req) (path req)) as [[]| | |];
    try (by intros _; split);
    cbn; intros Hin; exfalso;
    repeat (apply elem_of_cons in Hin as [Hin | Hin]; [discriminate Hin |]);
    by apply elem_of_nil in Hin.
Qed.

End Further.

End Server.

(** ** The development at work *)

(** C4, as the claim has it, fails, whatever URLs the framework builds:
    [/docs] is neither [/] nor [/health], and a [GET] on it is answered
    by the documentation endpoint that the constructor call of line 3
    installs, not by the default handler. *)
Lemma docs_path_is_not_unknown :
  ¬ ∃ url : request → string → option string,
      ∀ (p : string) (h0 : heap),
        p ≠ "/" → p ≠ "/health" →
        status_code (handle_request url (bare "GET" p) (boot h0)).1 = 404
        ∧ served_by (handle_request url (bare "GET" p) (boot h0)).1 = None.
Proof.
  intros [url H]. destruct (H "/docs" ∅) as [H404 _]; [done | done |].
  vm_compute in H404. discriminate.
Qed.

Lemma unmatched_path_not_found_witness :
  status_code
    (handle_request sample_url (Request "GET" "/unknown" "" [] "")
       (boot ∅)).1 = 404
  ∧ served_by
      (handle_request sample_url (Request "GET" "/unknown" "" [] "")
         (boot ∅)).1 = None
  ∧ (handle_request sample_url (Request "GET" "/unknown" "" [] "")
       (boot ∅)).2 = boot ∅.
Proof.
  apply (unmatched_path_not_found sample_url "/unknown" "" [] "" ∅);
    reflexivity.
Defined.

Lemma other_method_on_root_not_allowed_witness :
  status_code
    (handle_request sample_url (Request "POST" "/" "" [] "") (boot ∅)).1
    = 405
  ∧ status_code
      (handle_request sample_url (Request "POST" "/" "" [] "") (boot ∅)).1
    ≠ 200
  ∧ served_by
      (handle_request sample_url (Request "POST" "/" "" [] "") (boot ∅)).1
    = None
  ∧ (handle_request sample_url (Request "POST" "/" "" [] "") (boot ∅)).2
    = boot ∅.
Proof.
  apply (other_method_on_root_not_allowed sample_url "POST" "" [] "" ∅).
  discriminate.
Defined.

(** C6, as the claim has it, fails, whatever URLs the framework builds:
    two runs that answer [GET /] at different seconds do not write the
    same bytes, because the server puts its clock in the [Date] header. *)
Lemma restart_differs_in_date :
  ¬ ∃ url : request → string → option string,
      ∀ (now1 now2 : Z) (h1 h2 : heap) (hist1 hist2 : list request),
        on_wire now1 (run url h1 hist1 (bare "GET" "/"))
          = on_wire now2 (run url h2 hist2 (bare "GET" "/")).
Proof.
  intros [url H]. specialize (H 0 1 ∅ ∅ [] []).
  apply (f_equal header_date) in H. discriminate H.
Qed.

Lemma restart_same_status_and_body_witness :
  status_code
    (payload (on_wire 0 (run sample_url ∅ [] (Request "GET" "/" "" [] ""))))
    = status_code
        (payload
           (on_wire 86400
              (run sample_url {[ 1%positive := health_payload ]}
                 [bare "GET" "/health"] (Request "GET" "/" "" [] ""))))
  ∧ body
      (payload (on_wire 0 (run sample_url ∅ [] (Request "GET" "/" "" [] ""))))
    = body
        (payload
           (on_wire 86400
              (run sample_url {[ 1%positive := health_payload ]}
                 [bare "GET" "/health"] (Request "GET" "/" "" [] ""))))
  ∧ (on_wire 0 (run sample_url ∅ [] (Request "GET" "/" "" [] ""))
       = on_wire 86400
           (run sample_url {[ 1%positive := health_payload ]}
              [bare "GET" "/health"] (Request "GET" "/" "" [] ""))
     ↔ 0 = 86400).
Proof.
  apply (restart_same_status_and_body sample_url). by left.
Defined.


Lemma request_content_ignored_witness :
  run sample_url ∅ []
    (Request "GET" "/health" "verbose=1"
       [("cookie", "session=abc"); ("accept", "text/html")] "{}")
  = run sample_url {[ 1%positive := root_payload ]}
      [bare "GET" "/"; bare "POST" "/x"]
      (Request "GET" "/health" "" [] "").
Proof.
  apply request_content_ignored;
    [reflexivity | reflexivity | reflexivity | right; reflexivity].
Defined.

Lemma concurrent_same_as_sequential_witness :
  (run_schedule sample_url [0; 1; 1; 0]%nat
     (Accepted <$> [bare "GET" "/health"; bare "GET" "/health"], boot ∅)).1
    !! 0%nat
  = Some (Sent health_response).
Proof.
  destruct (concurrent_same_as_sequential sample_url
              [bare "GET" "/health"; bare "GET" "/health"] ∅
              [0; 1; 1; 0]%nat 0%nat (bare "GET" "/health") eq_refl)
    as (_ & _ & H0 & E0).
  rewrite <- (E0 eq_refl eq_refl). apply H0. vm_compute. lia.
Defined.

Lemma other_method_on_health_not_allowed_witness :
  status_code
    (handle_request sample_url (Request "HEAD" "/health" "" [] "")
       (boot ∅)).1 = 405
  ∧ served_by
      (handle_request sample_url (Request "HEAD" "/health" "" [] "")
         (boot ∅)).1 = None
  ∧ (handle_request sample_url (Request "HEAD" "/health" "" [] "")
       (boot ∅)).2 = boot ∅.
Proof.
  apply (other_method_on_health_not_allowed sample_url "HEAD" "" [] "" ∅).
  discriminate.
Defined.

Lemma serving_keeps_objects_witness :
  st_heap
    (serve sample_url [bare "GET" "/"; bare "GET" "/health"]
       (boot {[ 1%positive := root_payload ]})).2 !! 1%positive
    = Some root_payload
  ∧ st_heap
      (run_schedule sample_url [0; 0]%nat
         ([Accepted (bare "GET" "/")],
          boot {[ 1%positive := root_payload ]})).2 !! 1%positive
    = Some root_payload.
Proof.
  apply (serving_keeps_objects sample_url). reflexivity.
Defined.
